(** * The greedy nearest-neighbour strategy planner of [strategy.py]

    A shallow embedding of [euclid], [compute_strategy] and
    [default_field_layout], followed by the properties of the plan they
    produce.

    Numbers.  The Python code computes on floats and ints; the model computes
    on exact rationals ([Q]), so arithmetic here is exact and IEEE-754
    rounding is outside the model.  Python's [==], [<], [<=] and [>] on
    numbers are the boolean tests [Qeq_bool], [Qlt_bool], [Qle_bool] and
    [Qgt_bool]; they compare values, not representations.

    [math.hypot].  The library function is not part of the repository and is
    not rational-valued in general, so the development is parametric in it
    (Section [Planner]); [hypotQ] further down is a computable instance that
    is exact whenever the sum of squares is the square of a rational.

    Errors.  A Python exception is an [outcome] [Raises e].  The [while]
    loop is a [Fixpoint] on a fuel counter; [compute_strategy] starts it with
    [length artifact_positions] and [OutOfFuel] is shown unreachable. *)

From Stdlib Require Import QArith Qcanon Lqa ZArith Zdivisibility Lia.
From Stdlib Require Import List Bool Permutation Sorted.
From Stdlib Require Ascii String DecimalString.
Import Ascii.AsciiSyntax String.StringSyntax.
Import ListNotations.

Delimit Scope string_scope with string.
Delimit Scope char_scope with char.

Open Scope Q_scope.

(** ** Python values *)

(** [Point = Tuple[float, float]] *)
Definition Point : Type := (Q * Q)%type.

Definition Qlt_bool (a b : Q) : bool := negb (Qle_bool b a).
Definition Qgt_bool (a b : Q) : bool := Qlt_bool b a.

(** Tuple equality, as [list.remove] tests it: component-wise [==]. *)
Definition point_eqb (a b : Point) : bool :=
  Qeq_bool (fst a) (fst b) && Qeq_bool (snd a) (snd b).

Inductive exn : Type :=
| ZeroDivisionError   (* [d / speed] with [speed == 0] *)
| IndexError          (* [dlist[0]] on an empty list *)
| ValueError.         (* [list.remove(x)]: x not in list *)

Inductive outcome (A : Type) : Type :=
| Returns (a : A)
| Raises (e : exn)
| OutOfFuel.

Arguments Returns {A} a.
Arguments Raises {A} e.
Arguments OutOfFuel {A}.

(** True division [a / b]. *)
Definition py_div (a b : Q) : outcome Q :=
  if Qeq_bool b 0 then Raises ZeroDivisionError else Returns (a / b).

(** [l.remove(x)]: drops the first element equal to [x]; [None] stands for
    the [ValueError] raised when there is none. *)
Fixpoint list_remove (x : Point) (l : list Point) : option (list Point) :=
  match l with
  | [] => None
  | y :: l' =>
      if point_eqb y x then Some l'
      else match list_remove x l' with
           | Some r => Some (y :: r)
           | None => None
           end
  end.

(** [l.sort(key=lambda x: x[0])].  Python's sort is stable and compares keys
    with [<] only; on a total order the stable sorted list is unique, and
    this insertion sort computes it: an element moves in front of [x] only
    when its key is strictly smaller. *)
Fixpoint insert_by_key {A : Type} (x : Q * A) (l : list (Q * A)) : list (Q * A) :=
  match l with
  | [] => [x]
  | y :: l' =>
      if Qlt_bool (fst y) (fst x) then y :: insert_by_key x l'
      else x :: y :: l'
  end.

Fixpoint sort_by_key {A : Type} (l : list (Q * A)) : list (Q * A) :=
  match l with
  | [] => []
  | x :: l' => insert_by_key x (sort_by_key l')
  end.

(** ** The dictionaries of [compute_strategy] *)

(** The [params] mapping: every key may be absent. *)
Module Params.
Record t : Type := mk {
  robot_speed : option Q;
  pickup_time : option Q;
  match_time : option Q;
  auton_time : option Q;
  points_per_artifact : option Q;
  decode_zone : option (Point * Q);
  decode_bonus : option Q;
  auton_multiplier : option Q
}.

(** [params.get(key, default)] *)
Definition get {A : Type} (entry : option A) (default : A) : A :=
  match entry with
  | Some v => v
  | None => default
  end.

Definition empty : t := mk None None None None None None None None.
End Params.

(** One entry of [visited]. *)
Module Visit.
Record t : Type := mk {
  pos : Point;
  travel_time : Q;
  pickup_time : Q;
  time_at_pickup : Q;
  in_auton : bool;
  base_points : Q;
  bonus_points : Q;
  gained : Q
}.
End Visit.

(** The mapping [compute_strategy] returns. *)
Module Plan.
Record t : Type := mk {
  visited : list Visit.t;
  expected_score : Q;
  used_time : Q;
  remaining_artifacts : nat;
  params : Params.t
}.
End Plan.

(** The locals read from [params] before the loop. *)
Definition speed (p : Params.t) : Q := Params.get (Params.robot_speed p) 100.
Definition pickup_time (p : Params.t) : Q := Params.get (Params.pickup_time p) 3.
Definition total_time (p : Params.t) : Q := Params.get (Params.match_time p) 150.
Definition auton_time (p : Params.t) : Q := Params.get (Params.auton_time p) 30.
Definition points_per_artifact (p : Params.t) : Q :=
  Params.get (Params.points_per_artifact p) 5.
Definition decode_zone (p : Params.t) : Point * Q :=
  Params.get (Params.decode_zone p) ((450, 100), 80).
Definition decode_bonus (p : Params.t) : Q := Params.get (Params.decode_bonus p) 3.
Definition auton_multiplier (p : Params.t) : Q :=
  Params.get (Params.auton_multiplier p) (3 # 2).

(** The variables the loop updates. *)
Record state : Type := mkState {
  t : Q;
  pos : Point;
  visited : list Visit.t;
  score : Q;
  artifacts : list Point
}.

(** What one pass through the loop body does to the loop. *)
Inductive control : Type :=
| Break
| Continue (s : state).

Section Planner.

(** [math.hypot] *)
Variable hypot : Q -> Q -> Q.

Definition euclid (a b : Point) : Q :=
  hypot (fst a - fst b) (snd a - snd b).

(** [dlist], sorted. *)
Definition dlist (from : Point) (arts : list Point) : list (Q * Point) :=
  sort_by_key (map (fun a => (euclid from a, a)) arts).

(** The body of [while artifacts:]. *)
Definition body (p : Params.t) (s : state) : outcome control :=
  match dlist (pos s) (artifacts s) with
  | [] => Raises IndexError
  | (d, target) :: _ =>
      match py_div d (speed p) with
      | Raises e => Raises e
      | OutOfFuel => OutOfFuel
      | Returns travel_time =>
          let time_needed := travel_time + pickup_time p in
          if Qgt_bool (t s + time_needed) (total_time p) then Returns Break
          else
            let t1 := t s + travel_time in
            let in_auton := Qle_bool t1 (auton_time p) in
            let t2 := t1 + pickup_time p in
            let base := points_per_artifact p in
            let bonus := 0 in
            let '(center, radius) := decode_zone p in
            let bonus :=
              if Qle_bool (euclid target center) radius
              then bonus + decode_bonus p else bonus in
            let gained := base + bonus in
            let gained :=
              if in_auton then gained * auton_multiplier p else gained in
            let score' := score s + gained in
            let visited' :=
              visited s ++
              [ Visit.mk target travel_time (pickup_time p) t2 in_auton
                  base bonus gained ] in
            match list_remove target (artifacts s) with
            | None => Raises ValueError
            | Some artifacts' =>
                Returns (Continue (mkState t2 target visited' score' artifacts'))
            end
      end
  end.

Fixpoint loop (fuel : nat) (p : Params.t) (s : state) : outcome state :=
  match artifacts s with
  | [] => Returns s
  | _ :: _ =>
      match fuel with
      | O => OutOfFuel
      | S fuel' =>
          match body p s with
          | Returns Break => Returns s
          | Returns (Continue s') => loop fuel' p s'
          | Raises e => Raises e
          | OutOfFuel => OutOfFuel
          end
      end
  end.

Definition initial (start : Point) (artifact_positions : list Point) : state :=
  mkState 0 start [] 0 artifact_positions.

(** The loop of [compute_strategy], up to its final state. *)
Definition run (start : Point) (artifact_positions : list Point)
    (p : Params.t) : outcome state :=
  loop (length artifact_positions) p (initial start artifact_positions).

Definition compute_strategy (start : Point) (artifact_positions : list Point)
    (p : Params.t) : outcome Plan.t :=
  match run start artifact_positions p with
  | Returns s =>
      Returns (Plan.mk (visited s) (score s) (t s) (length (artifacts s)) p)
  | Raises e => Raises e
  | OutOfFuel => OutOfFuel
  end.

(** *** The loop, one pass at a time *)

(** The record appended by a pass that starts with the clock at [t0] and
    picks [target] at distance [d]. *)
Definition records (p : Params.t) (t0 d : Q) (target : Point) (v : Visit.t) : Prop :=
  Visit.pos v = target /\
  Visit.travel_time v = d / speed p /\
  Visit.pickup_time v = pickup_time p /\
  Visit.time_at_pickup v = t0 + d / speed p + pickup_time p /\
  Visit.in_auton v = Qle_bool (t0 + d / speed p) (auton_time p) /\
  Visit.base_points v = points_per_artifact p /\
  Visit.bonus_points v =
    (if Qle_bool (euclid target (fst (decode_zone p))) (snd (decode_zone p))
     then 0 + decode_bonus p else 0) /\
  Visit.gained v =
    (if Visit.in_auton v
     then (Visit.base_points v + Visit.bonus_points v) * auton_multiplier p
     else Visit.base_points v + Visit.bonus_points v).

(** [advances p s v s']: a pass of the body from [s] that does not break
    appends [v] and leaves [s']. *)
Definition advances (p : Params.t) (s : state) (v : Visit.t) (s' : state) : Prop :=
  exists d rest,
    dlist (pos s) (artifacts s) = (d, Visit.pos v) :: rest /\
    ~ speed p == 0 /\
    t s + (d / speed p + pickup_time p) <= total_time p /\
    records p (t s) d (Visit.pos v) v /\
    list_remove (Visit.pos v) (artifacts s) = Some (artifacts s') /\
    t s' = Visit.time_at_pickup v /\
    pos s' = Visit.pos v /\
    visited s' = visited s ++ [v] /\
    score s' = score s + Visit.gained v.

(** [steps p s vs s']: the passes that lead from [s] to [s'], with the
    records they append. *)
Inductive steps (p : Params.t) : state -> list Visit.t -> state -> Prop :=
| steps_done s : steps p s [] s
| steps_pass s v s1 vs s2 :
    body p s = Returns (Continue s1) ->
    advances p s v s1 ->
    steps p s1 vs s2 ->
    steps p s (v :: vs) s2.

(** Where the loop stops: the working list is empty or the body breaks. *)
Definition stops (p : Params.t) (s : state) : Prop :=
  artifacts s = [] \/ body p s = Returns Break.

End Planner.

(** [default_field_layout] *)
Record layout : Type := mkLayout {
  layout_start : Point;
  layout_artifacts : list Point;
  layout_decode_zone : Point * Q
}.

Definition default_field_layout : layout :=
  mkLayout (50, 200)
    [ (200, 80); (250, 160); (300, 240); (220, 320);
      (420, 90); (470, 160); (520, 220); (430, 300) ]
    ((470, 160), 70).

(** ** A computable [hypot] on the rationals

    [hypotQ x y] is the square root of [x*x + y*y] when that is the square of
    a rational, and the root rounded down to the grid of the reduced
    denominator otherwise. *)
Definition hypotQ (x y : Q) : Q :=
  let q := Qred (x * x + y * y) in
  Z.sqrt (Qnum q * Zpos (Qden q)) # Qden q.


(** ** What the plan is measured against *)

(** [elapsed_after t0 vs]: the clock after the visits [vs], started at [t0]. *)
Fixpoint elapsed_after (t0 : Q) (vs : list Visit.t) : Q :=
  match vs with
  | [] => t0
  | v :: vs' => elapsed_after (Visit.time_at_pickup v) vs'
  end.

(** [timed P t0 vs]: every record of [vs] satisfies [P] against the clock
    value left by the record before it ([t0] for the first one). *)
Fixpoint timed (P : Q -> Visit.t -> Prop) (t0 : Q) (vs : list Visit.t) : Prop :=
  match vs with
  | [] => True
  | v :: vs' => P t0 v /\ timed P (Visit.time_at_pickup v) vs'
  end.

(** [target] is the first entry of [arts] at minimum distance from [from]:
    everything listed before it is strictly farther, nothing is nearer. *)
Definition first_nearest (dist : Point -> Point -> Q)
    (from : Point) (arts : list Point) (target : Point) : Prop :=
  exists before after,
    arts = before ++ target :: after /\
    Forall (fun a => dist from target < dist from a) before /\
    Forall (fun a => dist from target <= dist from a) after.

(** [greedy_path dist from arts targets]: walking [targets] in order from
    [from], each one is the [first_nearest] of what is left of [arts]. *)
Fixpoint greedy_path (dist : Point -> Point -> Q)
    (from : Point) (arts : list Point) (targets : list Point) : Prop :=
  match targets with
  | [] => True
  | target :: targets' =>
      first_nearest dist from arts target /\
      exists arts',
        list_remove target arts = Some arts' /\
        greedy_path dist target arts' targets'
  end.


(** ** Worked inputs

    Three targets, two of them coincident, from the origin: [(3,4)] is 5
    away, on the rim of a decode zone of radius 4 around [(3,0)], and
    [(0,8)] is 5 away from [(3,4)].  At speed 5 the first arrival is at
    t = 1, the end of the autonomous window; the budget of 4 is spent after
    two visits. *)
Definition example_start : Point := (0, 0).

Definition example_artifacts : list Point := [ (0, 8); (3, 4); (3, 4) ].

Definition example_params : Params.t :=
  Params.mk (Some 5) (Some 1) (Some 4) (Some 1) (Some 5)
    (Some ((3, 0), 4)) (Some 3) (Some 2).

Definition example_plan : Plan.t :=
  Plan.mk
    [ Visit.mk (3, 4) (5 # 5) 1 (10 # 5) true 5 3 16;
      Visit.mk (3, 4) (0 # 5) 1 (75 # 25) false 5 3 8 ]
    24 (75 # 25) 1 example_params.




(** The parameters of the specification's scenarios 1 to 3: speed 10, no
    pickup time, no autonomous window, the bonus region far away. *)
Definition scenario_params (total : Q) : Params.t :=
  Params.mk (Some 10) (Some 0) (Some total) (Some 0) (Some 5)
    (Some ((1000, 1000), 1)) (Some 3) (Some 1).

(** ** Further measures of a plan *)

Definition Qsum (l : list Q) : Q := fold_right Qplus 0 l.

(** [routed P from vs]: every record of [vs] satisfies [P] against the
    position left by the record before it ([from] for the first one). *)
Fixpoint routed (P : Point -> Visit.t -> Prop) (from : Point)
    (vs : list Visit.t) : Prop :=
  match vs with
  | [] => True
  | v :: vs' => P from v /\ routed P (Visit.pos v) vs'
  end.








(** ** The script of [app.py]

    The sidebar's widgets are the inputs; the script chooses the field,
    builds [params], calls [compute_strategy], builds the path it draws and
    the coach tips.  Text is modelled as [String.string], which agrees with
    Python's [str] on ASCII text.  The calls that only display ([st.*],
    pandas, plotly, numpy) are not modelled. *)

(** What the sidebar's widgets hold. *)
Module Widgets.
Record t : Type := mk {
  match_time : Q;
  auton_time : Q;
  robot_speed : Q;
  pickup_time : Q;
  points_per_artifact : Q;
  decode_bonus : Q;
  auton_multiplier : Q;
  use_preset : bool;
  start_x : Q;
  start_y : Q;
  art_input : String.string;
  dz_center_x : Q;
  dz_center_y : Q;
  dz_radius : Q;
  button : bool
}.

(** The [min_value] and [max_value] of the [st.number_input] calls. *)
Definition in_bounds (w : t) : Prop :=
  30 <= match_time w <= 300 /\
  5 <= auton_time w <= 60 /\
  10 <= robot_speed w <= 1000 /\
  (1 # 2) <= pickup_time w <= 20 /\
  1 <= points_per_artifact w <= 50 /\
  0 <= decode_bonus w <= 50 /\
  1 <= auton_multiplier w <= 3.
End Widgets.

Module App.

(** [str.isspace] on ASCII: tab to carriage return, the four separators
    and the space. *)
Definition is_space (c : Ascii.ascii) : bool :=
  let n := Ascii.nat_of_ascii c in
  ((9 <=? n) && (n <=? 13) || (28 <=? n) && (n <=? 32))%nat.

Definition is_empty (s : String.string) : bool :=
  match s with
  | String.EmptyString => true
  | String.String _ _ => false
  end.

Fixpoint lstrip (s : String.string) : String.string :=
  match s with
  | String.EmptyString => String.EmptyString
  | String.String c s' => if is_space c then lstrip s' else s
  end.

Fixpoint rstrip (s : String.string) : String.string :=
  match s with
  | String.EmptyString => String.EmptyString
  | String.String c s' =>
      let r := rstrip s' in
      if is_empty r && is_space c then String.EmptyString
      else String.String c r
  end.

(** [s.strip()] *)
Definition strip (s : String.string) : String.string := rstrip (lstrip s).

(** [s.split(sep)] for a one-character [sep]: never an empty list. *)
Fixpoint split (sep : Ascii.ascii) (s : String.string) : list String.string :=
  match s with
  | String.EmptyString => [String.EmptyString]
  | String.String c s' =>
      if Ascii.eqb c sep then String.EmptyString :: split sep s'
      else match split sep s' with
           | piece :: pieces => String.String c piece :: pieces
           | [] => [String.String c String.EmptyString]
           end
  end.

(** [sep not in s] *)
Fixpoint free_of (sep : Ascii.ascii) (s : String.string) : bool :=
  match s with
  | String.EmptyString => true
  | String.String c s' => negb (Ascii.eqb c sep) && free_of sep s'
  end.

(** An entry of the text area that is not blank. *)
Definition nonblank (p : String.string) : bool := negb (is_empty (strip p)).

(** [a + "," + b] *)
Definition pair_text (ab : String.string * String.string) : String.string :=
  String.append (fst ab) (String.String ","%char (snd ab)).

(** What a global name holds: a number, or something the tips do not
    compute with. *)
Inductive pyobj : Type :=
| Number (q : Q)
| Object.

Inductive error : Type :=
| Strategy (e : exn)               (* raised inside [compute_strategy] *)
| Fuel                             (* the model's loop out of fuel *)
| NameError (name : String.string)
| TypeError.

Inductive result (A : Type) : Type :=
| Ok (a : A)
| Error (e : error).

Arguments Ok {A} a.
Arguments Error {A} e.

Definition bind {A B : Type} (c : result A) (k : A -> result B) : result B :=
  match c with
  | Ok a => k a
  | Error e => Error e
  end.

Notation "x <- c ;; k" := (bind c (fun x => k))
  (at level 61, c at next level, right associativity).

Fixpoint lookup (name : String.string) (g : list (String.string * pyobj))
  : option pyobj :=
  match g with
  | [] => None
  | (n, o) :: g' => if String.eqb n name then Some o else lookup name g'
  end.

(** Reading a global to compare it with a number. *)
Definition read (g : list (String.string * pyobj)) (name : String.string)
  : result Q :=
  match lookup name g with
  | None => Error (NameError name)
  | Some (Number q) => Ok q
  | Some Object => Error TypeError
  end.

(** Every name the script can have bound at module level when the tips are
    computed (line 147 on), in the order of their first binding.  Names
    bound on some runs only (the manual branch, the loop variables) are
    listed too: the list is an upper bound of the namespace.  The builtins
    hold no name that starts with [autonom]. *)
Definition globals (w : Widgets.t) : list (String.string * pyobj) :=
  [ ("st", Object); ("pd", Object); ("np", Object); ("go", Object);
    ("compute_strategy", Object); ("default_field_layout", Object);
    ("euclid", Object);
    ("match_time", Number (Widgets.match_time w));
    ("auton_time", Number (Widgets.auton_time w));
    ("robot_speed", Number (Widgets.robot_speed w));
    ("pickup_time", Number (Widgets.pickup_time w));
    ("points_per_artifact", Number (Widgets.points_per_artifact w));
    ("decode_bonus", Number (Widgets.decode_bonus w));
    ("auton_multiplier", Number (Widgets.auton_multiplier w));
    ("preset", Object); ("use_preset", Object);
    ("start", Object); ("artifacts", Object); ("decode_zone", Object);
    ("start_x", Number (Widgets.start_x w));
    ("start_y", Number (Widgets.start_y w));
    ("art_input", Object); ("p", Object); ("x", Object); ("y", Object);
    ("dz_center_x", Number (Widgets.dz_center_x w));
    ("dz_center_y", Number (Widgets.dz_center_y w));
    ("dz_radius", Object);
    ("run_sim", Object); ("params", Object); ("result", Object);
    ("visited", Object); ("tbl", Object); ("i", Object); ("v", Object);
    ("df", Object); ("fig", Object);
    ("WIDTH", Number 600); ("HEIGHT", Number 400);
    ("xs", Object); ("ys", Object); ("dz_center", Object);
    ("theta", Object); ("circ_x", Object); ("circ_y", Object);
    ("path_x", Object); ("path_y", Object); ("cur", Object);
    ("tips", Object) ]%string.

(** Lines 147 to 155.  [result] and [tips] are bound in the lines
    themselves; the other names are read from the globals. *)
Definition coach_tips (g : list (String.string * pyobj)) (result : Plan.t)
  : App.result (list String.string) :=
  let tips := [] in
  let tips :=
    if (0 <? Plan.remaining_artifacts result)%nat
    then tips ++ ["- Consider increasing robot speed, or prioritizing artifacts inside the decode zone during auton."%string]
    else tips in
  m <- read g "autonom_multiplier"%string ;;
  quick <- (if Qgt_bool m (12 # 10)
            then a <- read g "auton_time"%string ;; Ok (Qgt_bool a 10)
            else Ok false) ;;
  let tips :=
    if quick
    then tips ++ ["- Focus on quick pickups during autonomous to exploit the multiplier."%string]
    else tips in
  b <- read g "decode_bonus"%string ;;
  let tips :=
    if Qgt_bool b 0
    then tips ++ ["- Decode zone grants bonus: plan path to include those artifacts early if close."%string]
    else tips in
  let tips :=
    match tips with
    | [] => tips ++ ["- Strategy looks balanced for current parameters."%string]
    | _ :: _ => tips
    end in
  Ok tips.

(** Lines 122 to 129: the corners of the planned path. *)
Fixpoint path_loop (cur : Point) (visited : list Visit.t)
    (path_x path_y : list Q) : list Q * list Q :=
  match visited with
  | [] => (path_x, path_y)
  | v :: visited' =>
      path_loop (Visit.pos v) visited'
        ((path_x ++ [fst cur]) ++ [fst (Visit.pos v)])
        ((path_y ++ [snd cur]) ++ [snd (Visit.pos v)])
  end.

Definition planned_path (start : Point) (visited : list Visit.t)
  : list Q * list Q :=
  path_loop start visited [] [].

Section Script.

(** [math.hypot], and [float] on text ([None]: [ValueError]). *)
Variable hypot : Q -> Q -> Q.
Variable float : String.string -> option Q.

(** [x, y = map(float, p.split(","))] under the bare [except]: a point when
    [p] is two texts that [float] accepts around one comma, and nothing
    otherwise. *)
Definition parse_pair (p : String.string) : option Point :=
  match split ","%char p with
  | [a; b] =>
      match float a with
      | Some x =>
          match float b with
          | Some y => Some (x, y)
          | None => None
          end
      | None => None
      end
  | _ => None
  end.

(** Lines 37 to 46: the artifacts, and the texts that are warned about. *)
Fixpoint parse_loop (pieces : list String.string) (artifacts : list Point)
    (warnings : list String.string) : list Point * list String.string :=
  match pieces with
  | [] => (artifacts, warnings)
  | p :: pieces' =>
      let p := strip p in
      if is_empty p then parse_loop pieces' artifacts warnings
      else match parse_pair p with
           | Some point => parse_loop pieces' (artifacts ++ [point]) warnings
           | None => parse_loop pieces' artifacts (warnings ++ [p])
           end
  end.

Definition parse_artifacts (art_input : String.string)
  : list Point * list String.string :=
  parse_loop (split ";"%char art_input) [] [].

(** The entry [a,b] is read as [point]: no [;] and no [,] inside [a] and
    [b], and [float] accepts them, blanks before [a] and after [b] aside. *)
Definition reads (ab : String.string * String.string) (point : Point) : Prop :=
  free_of ";"%char (fst ab) = true /\
  free_of ","%char (fst ab) = true /\
  free_of ";"%char (snd ab) = true /\
  free_of ","%char (snd ab) = true /\
  float (lstrip (fst ab)) = Some (fst point) /\
  float (rstrip (snd ab)) = Some (snd point).

(** Lines 25 to 50: the start, the artifacts and the decode zone, from the
    preset or from the manual inputs. *)
Definition start (w : Widgets.t) : Point :=
  if Widgets.use_preset w then layout_start default_field_layout
  else (Widgets.start_x w, Widgets.start_y w).

Definition artifacts (w : Widgets.t) : list Point :=
  if Widgets.use_preset w then layout_artifacts default_field_layout
  else fst (parse_artifacts (Widgets.art_input w)).

Definition decode_zone (w : Widgets.t) : Point * Q :=
  if Widgets.use_preset w then layout_decode_zone default_field_layout
  else ((Widgets.dz_center_x w, Widgets.dz_center_y w), Widgets.dz_radius w).

(** Lines 60 to 69. *)
Definition params (w : Widgets.t) : Params.t :=
  Params.mk (Some (Widgets.robot_speed w)) (Some (Widgets.pickup_time w))
    (Some (Widgets.match_time w)) (Some (Widgets.auton_time w))
    (Some (Widgets.points_per_artifact w)) (Some (decode_zone w))
    (Some (Widgets.decode_bonus w)) (Some (Widgets.auton_multiplier w)).

(** Line 71. *)
Definition simulate (w : Widgets.t) : outcome Plan.t :=
  compute_strategy hypot (start w) (artifacts w) (params w).

(** What a run of the script has computed when it ends. *)
Inductive page : Type :=
| Idle
| Ran (result : Plan.t) (path : list Q * list Q) (tips : list String.string).

(** Lines 53 to 161, the button included. *)
Definition main (w : Widgets.t) : App.result page :=
  if Widgets.button w then
    match simulate w with
    | Returns result =>
        let path := planned_path (start w) (Plan.visited result) in
        tips <- coach_tips (globals w) result ;;
        Ok (Ran result path tips)
    | Raises e => Error (Strategy e)
    | OutOfFuel => Error Fuel
    end
  else Ok Idle.

End Script.

End App.

(** The legs of a walk from [from] through [ps]. *)
Fixpoint legs (from : Point) (ps : list Point) : list (Point * Point) :=
  match ps with
  | [] => []
  | p :: ps' => (from, p) :: legs p ps'
  end.

(** The part of [float] that reads unsigned decimal integers. *)
Definition float_of_digits (s : String.string) : option Q :=
  match DecimalString.NilZero.uint_of_string s with
  | Some u => Some (inject_Z (Z.of_uint u))
  | None => None
  end.

(** The sidebar as the script first shows it, the button pressed. *)
Definition default_widgets : Widgets.t :=
  Widgets.mk 150 30 150 3 5 3 (3 # 2) true 50 200
    "200,80;250,160;300,240"%string 470 160 70 true.

(** The same with the preset unticked and a text typed by hand. *)
Definition manual_widgets : Widgets.t :=
  Widgets.mk 150 30 150 3 5 3 (3 # 2) false 0 0
    "3,4; 0,8 ;;oops; 3,4,5"%string 3 0 4 true.

(** ** Comparisons and lists *)

Lemma Qlt_bool_iff (a b : Q) : Qlt_bool a b = true <-> a < b.
Proof.
  unfold Qlt_bool. rewrite negb_true_iff.
  split; intro H.
  - apply Qnot_le_lt. intro Hle. apply Qle_bool_iff in Hle. congruence.
  - destruct (Qle_bool b a) eqn:E; [|reflexivity].
    apply Qle_bool_iff in E. exfalso. exact (Qlt_not_le _ _ H E).
Qed.

Lemma Qlt_bool_false (a b : Q) : Qlt_bool a b = false <-> b <= a.
Proof.
  unfold Qlt_bool. rewrite negb_false_iff. apply Qle_bool_iff.
Qed.

Lemma Qgt_bool_false (a b : Q) : Qgt_bool a b = false <-> a <= b.
Proof. unfold Qgt_bool. apply Qlt_bool_false. Qed.

Lemma Qgt_bool_iff (a b : Q) : Qgt_bool a b = true <-> b < a.
Proof. unfold Qgt_bool. apply Qlt_bool_iff. Qed.

Lemma point_eqb_iff (a b : Point) :
  point_eqb a b = true <-> fst a == fst b /\ snd a == snd b.
Proof.
  unfold point_eqb. rewrite andb_true_iff, !Qeq_bool_iff. reflexivity.
Qed.

Lemma point_eqb_refl (a : Point) : point_eqb a a = true.
Proof. apply point_eqb_iff. split; reflexivity. Qed.

Lemma list_remove_length x l r :
  list_remove x l = Some r -> length l = S (length r).
Proof.
  revert r. induction l as [|y l IH]; simpl; intros r H; [discriminate|].
  destruct (point_eqb y x).
  - now inversion H.
  - destruct (list_remove x l) as [r'|]; [|discriminate].
    inversion H; subst. simpl. now rewrite (IH r').
Qed.

(** [remove] drops the entry at the place of the first match. *)
Lemma list_remove_first x before after :
  Forall (fun a => point_eqb a x = false) before ->
  list_remove x (before ++ x :: after) = Some (before ++ after).
Proof.
  induction 1 as [|a before Ha _ IH]; simpl.
  - now rewrite point_eqb_refl.
  - now rewrite Ha, IH.
Qed.

Lemma list_remove_In x l : In x l -> list_remove x l <> None.
Proof.
  induction l as [|y l IH]; simpl; [tauto|].
  intros [->|Hin].
  - now rewrite point_eqb_refl.
  - destruct (point_eqb y x); [discriminate|].
    destruct (list_remove x l); [discriminate|]. now apply IH in Hin.
Qed.

(** The removed entry is equal ([==]) to the one asked for, and the rest of
    the list is kept in place. *)
Lemma list_remove_split x l r :
  list_remove x l = Some r ->
  exists before y after,
    l = before ++ y :: after /\ r = before ++ after /\
    point_eqb y x = true /\
    Forall (fun a => point_eqb a x = false) before.
Proof.
  revert r. induction l as [|y l IH]; simpl; intros r H; [discriminate|].
  destruct (point_eqb y x) eqn:E.
  - inversion H; subst. exists [], y, r. repeat split; auto.
  - destruct (list_remove x l) as [r'|]; [|discriminate].
    inversion H; subst.
    destruct (IH r' eq_refl) as (b & z & a & -> & -> & Hz & Hb).
    exists (y :: b), z, a. repeat split; auto.
Qed.

(** *** The stable sort and its first entry *)

Lemma insert_by_key_not_nil {A} (x : Q * A) l : insert_by_key x l <> [].
Proof. destruct l; simpl; [|destruct (Qlt_bool _ _)]; discriminate. Qed.

Lemma sort_by_key_nil {A} (l : list (Q * A)) : sort_by_key l = [] -> l = [].
Proof.
  destruct l; simpl; [reflexivity|].
  intro H. now apply insert_by_key_not_nil in H.
Qed.

Lemma sort_by_key_length {A} (l : list (Q * A)) :
  length (sort_by_key l) = length l.
Proof.
  assert (Hins : forall (x : Q * A) l, length (insert_by_key x l) = S (length l)).
  { intros x l0. induction l0 as [|y l0 IH]; simpl; [reflexivity|].
    destruct (Qlt_bool _ _); simpl; [now rewrite IH|reflexivity]. }
  induction l as [|x l IH]; simpl; [reflexivity|].
  now rewrite Hins, IH.
Qed.

(** The first entry of the sorted list is the first entry of the unsorted
    one that carries the smallest key. *)
Lemma sort_by_key_head {A} (l : list (Q * A)) x rest :
  sort_by_key l = x :: rest ->
  exists before after,
    l = before ++ x :: after /\
    Forall (fun y => fst x < fst y) before /\
    Forall (fun y => fst x <= fst y) after.
Proof.
  revert x rest. induction l as [|a l IH]; simpl; intros x rest H; [discriminate|].
  destruct (sort_by_key l) as [|y r] eqn:E.
  - apply sort_by_key_nil in E. subst l. simpl in H. inversion H; subst.
    exists [], []. auto.
  - destruct (IH y r eq_refl) as (b & af & -> & Hb & Haf).
    simpl in H. destruct (Qlt_bool (fst y) (fst a)) eqn:C.
    + inversion H; subst. apply Qlt_bool_iff in C.
      exists (a :: b), af. repeat split; auto.
    + inversion H; subst. apply Qlt_bool_false in C.
      exists [], (b ++ y :: af). repeat split; auto.
      apply Forall_app. split.
      * eapply Forall_impl; [|exact Hb]. simpl. intros z Hz.
        apply Qlt_le_weak in Hz. eapply Qle_trans; eauto.
      * constructor; [assumption|].
        eapply Forall_impl; [|exact Haf]. simpl. intros z Hz.
        eapply Qle_trans; eauto.
Qed.

(** *** [hypotQ] *)

Lemma hypotQ_nonneg (x y : Q) : 0 <= hypotQ x y.
Proof.
  unfold hypotQ, Qle. simpl. rewrite Z.mul_1_r. apply Z.sqrt_nonneg.
Qed.

Lemma hypotQ_proper (x x' y y' : Q) :
  x == x' -> y == y' -> hypotQ x y == hypotQ x' y'.
Proof.
  intros Hx Hy. unfold hypotQ.
  assert (E : Qred (x * x + y * y) = Qred (x' * x' + y' * y')).
  { apply Qred_complete. now rewrite Hx, Hy. }
  rewrite E. reflexivity.
Qed.

Lemma Qred_square_lowest (r : Q) :
  Qred (Qred r * Qred r) = Qred r * Qred r.
Proof.
  apply Qred_identity.
  pose proof (proj1 (Qred_iff (Qred r)) (Qred_involutive r)) as Hg.
  destruct (Qred r) as [a b]. simpl in *.
  rewrite Pos2Z.inj_mul.
  apply Z.coprime_mul_r; apply Z.coprime_mul_l; exact Hg.
Qed.

(** Where the Euclidean length is rational, [hypotQ] is that length. *)
Lemma hypotQ_exact (x y r : Q) :
  0 <= r -> x * x + y * y == r * r -> hypotQ x y == r.
Proof.
  intros Hr Hsq. unfold hypotQ.
  assert (E : Qred (x * x + y * y) = Qred r * Qred r).
  { rewrite <- Qred_square_lowest. apply Qred_complete.
    rewrite Hsq, (Qred_correct r). reflexivity. }
  rewrite E. apply Qeq_trans with (Qred r); [|apply Qred_correct].
  rewrite <- (Qred_correct r) in Hr.
  destruct (Qred r) as [a b]. simpl.
  assert (Ha : (0 <= a)%Z).
  { unfold Qle in Hr. simpl in Hr. lia. }
  replace (a * a * Z.pos (b * b))%Z with ((a * Z.pos b) * (a * Z.pos b))%Z
    by (rewrite Pos2Z.inj_mul; ring).
  rewrite Z.sqrt_square by lia.
  unfold Qeq. simpl. rewrite Pos2Z.inj_mul. ring.
Qed.

(** ** The loop, one pass at a time *)

Section Loop.

Variable hypot : Q -> Q -> Q.


Lemma py_div_Returns a b q : py_div a b = Returns q -> ~ b == 0 /\ q = a / b.
Proof.
  unfold py_div. destruct (Qeq_bool b 0) eqn:E; [discriminate|].
  intro H. inversion H. split; [|reflexivity].
  intro Hb. apply Qeq_bool_iff in Hb. congruence.
Qed.

Lemma py_div_nonzero a b : ~ b == 0 -> py_div a b = Returns (a / b).
Proof.
  intro Hb. unfold py_div. destruct (Qeq_bool b 0) eqn:E; [|reflexivity].
  apply Qeq_bool_iff in E. contradiction.
Qed.


Lemma body_Continue p s s' :
  body hypot p s = Returns (Continue s') -> exists v, advances hypot p s v s'.
Proof.
  unfold body, advances, records.
  destruct (dlist hypot (pos s) (artifacts s)) as [|[d target] rest] eqn:Ed;
    [discriminate|].
  destruct (py_div d (speed p)) as [q| |] eqn:Eq; try discriminate.
  apply py_div_Returns in Eq. destruct Eq as [Hsp ->].
  destruct (Qgt_bool _ _) eqn:Eg; [discriminate|].
  apply Qgt_bool_false in Eg.
  destruct (decode_zone p) as [center radius]. simpl fst. simpl snd.
  destruct (list_remove target (artifacts s)) as [arts'|] eqn:Er;
    [|discriminate].
  intro H. inversion H; subst s'; clear H. simpl.
  eexists (Visit.mk _ _ _ _ _ _ _ _). exists d, rest. simpl.
  repeat split; try reflexivity; assumption.
Qed.

Lemma body_Break p s :
  body hypot p s = Returns Break ->
  exists d target rest,
    dlist hypot (pos s) (artifacts s) = (d, target) :: rest /\
    ~ speed p == 0 /\
    total_time p < t s + (d / speed p + pickup_time p).
Proof.
  unfold body.
  destruct (dlist hypot (pos s) (artifacts s)) as [|[d target] rest] eqn:Ed;
    [discriminate|].
  destruct (py_div d (speed p)) as [q| |] eqn:Eq; try discriminate.
  apply py_div_Returns in Eq. destruct Eq as [Hsp ->].
  destruct (Qgt_bool _ _) eqn:Eg.
  - intros _. apply Qgt_bool_iff in Eg. now exists d, target, rest.
  - destruct (decode_zone p) as [center radius].
    destruct (list_remove target (artifacts s)); discriminate.
Qed.

(** The picked entry is the first nearest one of the working list. *)
Lemma dlist_head from arts d target rest :
  dlist hypot from arts = (d, target) :: rest ->
  d = euclid hypot from target /\ first_nearest (euclid hypot) from arts target.
Proof.
  unfold dlist. intro H.
  apply sort_by_key_head in H.
  destruct H as (b & af & Hmap & Hb & Haf).
  apply map_eq_app in Hmap.
  destruct Hmap as (l1 & l2 & -> & Hl1 & Hl2).
  destruct l2 as [|x l2]; [discriminate|]. simpl in Hl2.
  inversion Hl2; subst d target af b. split; [reflexivity|].
  exists l1, l2. repeat split; auto.
  - rewrite Forall_map in Hb. exact Hb.
  - rewrite Forall_map in Haf. exact Haf.
Qed.

Lemma dlist_not_nil from a arts : dlist hypot from (a :: arts) <> [].
Proof.
  unfold dlist. simpl. apply insert_by_key_not_nil.
Qed.

(** With a non-zero speed and a non-empty working list the body raises
    nothing: it breaks or it advances. *)
Lemma body_defined p s :
  ~ speed p == 0 -> artifacts s <> [] ->
  body hypot p s = Returns Break \/ exists s', body hypot p s = Returns (Continue s').
Proof.
  intros Hsp Hne. unfold body.
  destruct (dlist hypot (pos s) (artifacts s)) as [|[d target] rest] eqn:Ed.
  - destruct (artifacts s); [congruence|]. now apply dlist_not_nil in Ed.
  - rewrite (py_div_nonzero _ _ Hsp).
    destruct (Qgt_bool _ _); [now left|right].
    destruct (decode_zone p) as [center radius].
    apply dlist_head in Ed. destruct Ed as [_ (b & af & E & _)].
    destruct (list_remove target (artifacts s)) as [arts'|] eqn:Er.
    + eexists. reflexivity.
    + exfalso. apply (list_remove_In target (artifacts s)); [|assumption].
      rewrite E. apply in_elt.
Qed.


Lemma steps_visited p s vs s' :
  steps hypot p s vs s' -> visited s' = visited s ++ vs.
Proof.
  induction 1 as [s|s v s1 vs s2 _ Hadv _ IH].
  - now rewrite app_nil_r.
  - destruct Hadv as (d & rest & _ & _ & _ & _ & _ & _ & _ & Hv & _).
    rewrite IH, Hv, <- app_assoc. reflexivity.
Qed.

Lemma loop_Returns fuel p s s' :
  loop hypot fuel p s = Returns s' ->
  exists vs, steps hypot p s vs s' /\ stops hypot p s'.
Proof.
  revert s. induction fuel as [|fuel IH]; intros s; simpl.
  - destruct (artifacts s) eqn:E; [|discriminate].
    intro H. inversion H; subst. exists []. split; [constructor|now left].
  - destruct (artifacts s) eqn:E.
    + intro H. inversion H; subst. exists []. split; [constructor|now left].
    + destruct (body hypot p s) as [[|s1]| |] eqn:Eb; try discriminate.
      * intro H. inversion H; subst. exists [].
        split; [constructor|now right].
      * intro H. destruct (IH _ H) as (vs & Hst & Hstop).
        destruct (body_Continue _ _ _ Eb) as (v & Hadv).
        exists (v :: vs). split; [|assumption].
        econstructor; eassumption.
Qed.

(** The fuel [compute_strategy] starts with is enough, and nothing but a
    zero speed raises. *)
Lemma loop_total fuel p s :
  ~ speed p == 0 -> (length (artifacts s) <= fuel)%nat ->
  exists s', loop hypot fuel p s = Returns s'.
Proof.
  intros Hsp. revert s. induction fuel as [|fuel IH]; intros s Hlen; simpl.
  - destruct (artifacts s); [eauto|simpl in Hlen; lia].
  - destruct (artifacts s) as [|a l] eqn:E; [eauto|].
    destruct (body_defined p s Hsp) as [Hb|(s1 & Hb)]; [congruence| |].
    + rewrite Hb. eauto.
    + rewrite Hb. apply IH.
      destruct (body_Continue _ _ _ Hb)
        as (v & d & rest & _ & _ & _ & _ & Hr & _).
      apply list_remove_length in Hr. rewrite E in Hr. simpl in *. lia.
Qed.


End Loop.

(** ** Records against the clock *)


Lemma timed_Forall (P : Visit.t -> Prop) t0 vs :
  timed (fun _ v => P v) t0 vs -> Forall P vs.
Proof.
  revert t0. induction vs as [|v vs IH]; simpl; intros t0 H; [constructor|].
  destruct H as [Hv Hvs]. constructor; eauto.
Qed.



Section Plans.

Variable hypot : Q -> Q -> Q.


(** [math.hypot] returns a length, and the same length for equal numbers. *)
Hypothesis hypot_nonneg : forall x y, 0 <= hypot x y.
Hypothesis hypot_proper :
  forall x x' y y', x == x' -> y == y' -> hypot x y == hypot x' y'.

Lemma steps_clock p s vs s' :
  steps hypot p s vs s' -> t s' = elapsed_after (t s) vs.
Proof.
  induction 1 as [s|s v s1 vs s2 _ Hadv _ IH]; simpl; [reflexivity|].
  destruct Hadv as (d & rest & _ & _ & _ & _ & _ & Ht & _).
  now rewrite IH, Ht.
Qed.

(** What every advancing pass guarantees of its record holds along the
    whole plan. *)
Lemma steps_timed (P : Q -> Visit.t -> Prop) p :
  (forall s v s', advances hypot p s v s' -> P (t s) v) ->
  forall s vs s', steps hypot p s vs s' -> timed P (t s) vs.
Proof.
  intros HP. induction 1 as [s|s v s1 vs s2 _ Hadv _ IH]; simpl; [exact I|].
  split; [eapply HP; eassumption|].
  destruct Hadv as (d & rest & _ & _ & _ & _ & _ & Ht & _).
  now rewrite <- Ht.
Qed.

Lemma run_Returns start arts p s :
  run hypot start arts p = Returns s ->
  steps hypot p (initial start arts) (visited s) s /\ stops hypot p s.
Proof.
  unfold run. intro H.
  apply loop_Returns in H. destruct H as (vs & Hst & Hstop).
  pose proof (steps_visited _ _ _ _ _ Hst) as Hv. simpl in Hv.
  rewrite Hv. auto.
Qed.

(** The plan is the final state of the loop, with [params] attached. *)
Lemma compute_strategy_Returns start arts p plan :
  compute_strategy hypot start arts p = Returns plan ->
  exists s,
    steps hypot p (initial start arts) (Plan.visited plan) s /\ stops hypot p s /\
    Plan.visited plan = visited s /\
    Plan.expected_score plan = score s /\
    Plan.used_time plan = t s /\
    Plan.remaining_artifacts plan = length (artifacts s) /\
    Plan.params plan = p.
Proof.
  unfold compute_strategy.
  destruct (run hypot start arts p) as [s| |] eqn:E; try discriminate.
  intro H. inversion H; subst plan; clear H. simpl.
  apply run_Returns in E. destruct E as [Hst Hstop].
  exists s. repeat split; auto.
Qed.

Lemma compute_strategy_total start arts p :
  ~ speed p == 0 -> exists plan, compute_strategy hypot start arts p = Returns plan.
Proof.
  intro Hsp. unfold compute_strategy, run.
  destruct (loop_total hypot (length arts) p (initial start arts) Hsp)
    as (s & ->); [simpl; lia|].
  eauto.
Qed.

Lemma timed_plan (P : Q -> Visit.t -> Prop) start arts p plan :
  (forall s v s', advances hypot p s v s' -> P (t s) v) ->
  compute_strategy hypot start arts p = Returns plan ->
  timed P 0 (Plan.visited plan).
Proof.
  intros HP H. apply compute_strategy_Returns in H.
  destruct H as (s & Hst & _).
  exact (steps_timed P p HP _ _ _ Hst).
Qed.

Lemma used_time_elapsed start arts p plan :
  compute_strategy hypot start arts p = Returns plan ->
  Plan.used_time plan = elapsed_after 0 (Plan.visited plan).
Proof.
  intro H. apply compute_strategy_Returns in H.
  destruct H as (s & Hst & _ & _ & _ & -> & _).
  exact (steps_clock _ _ _ _ Hst).
Qed.

(** *** The time budget *)


(** *** Conservation of targets *)

Lemma point_eqb_euclid from a b :
  point_eqb a b = true -> euclid hypot from a == euclid hypot from b.
Proof.
  intro H. apply point_eqb_iff in H. destruct H as [H1 H2].
  unfold euclid. apply hypot_proper; [now rewrite H1|now rewrite H2].
Qed.

(** The entry [remove] drops is the picked one, not a look-alike listed
    before it. *)
Lemma advances_artifacts p s v s' :
  advances hypot p s v s' ->
  exists before after,
    artifacts s = before ++ Visit.pos v :: after /\
    artifacts s' = before ++ after.
Proof.
  intros (d & rest & Hd & _ & _ & _ & Hr & _).
  apply dlist_head in Hd. destruct Hd as [_ (b & af & E & Hb & _)].
  exists b, af. split; [assumption|].
  rewrite E, list_remove_first in Hr; [now inversion Hr|].
  eapply Forall_impl; [|exact Hb]. simpl. intros a Ha.
  destruct (point_eqb a (Visit.pos v)) eqn:C; [|reflexivity].
  apply (point_eqb_euclid (pos s)) in C. rewrite C in Ha.
  exfalso. exact (Qlt_irrefl _ Ha).
Qed.

Lemma steps_conserve p s vs s' :
  steps hypot p s vs s' ->
  Permutation (artifacts s) (map Visit.pos vs ++ artifacts s').
Proof.
  induction 1 as [s|s v s1 vs s2 _ Hadv _ IH]; simpl; [reflexivity|].
  apply advances_artifacts in Hadv.
  destruct Hadv as (b & af & -> & E). rewrite E in IH.
  rewrite <- IH. symmetry. apply Permutation_middle.
Qed.

(** C2. Whatever the input (duplicates and the empty list included), the
    number of records of the returned plan plus [remaining_artifacts] is the
    length of the target list, and the target list is, up to order, the
    visited positions followed by the [remaining_artifacts] entries left in
    the working list: each input entry is counted exactly once. *)
Theorem conservation start arts p plan :
  compute_strategy hypot start arts p = Returns plan ->
  (length (Plan.visited plan) + Plan.remaining_artifacts plan = length arts)%nat /\
  exists unreached,
    length unreached = Plan.remaining_artifacts plan /\
    Permutation arts (map Visit.pos (Plan.visited plan) ++ unreached).
Proof.
  intro H. apply compute_strategy_Returns in H.
  destruct H as (s & Hst & _ & _ & _ & _ & Hrem & _).
  apply steps_conserve in Hst. simpl in Hst.
  split.
  - apply Permutation_length in Hst.
    rewrite length_app, length_map in Hst. lia.
  - exists (artifacts s). split; [now rewrite Hrem|assumption].
Qed.

(** *** The returned mapping *)

(** C10. The mapping returned by [compute_strategy] carries, next to
    [visited], [expected_score], [used_time] and [remaining_artifacts], the
    entry [params], and its value is the mapping the caller supplied. *)
Theorem params_returned start arts p plan :
  compute_strategy hypot start arts p = Returns plan ->
  Plan.params plan = p.
Proof.
  intro H. apply compute_strategy_Returns in H.
  destruct H as (s & _ & _ & _ & _ & _ & _ & Hp). exact Hp.
Qed.

(** *** Errors *)


(** *** The autonomous window *)

(** C4. Every record's [in_auton] is the test (clock before the visit +
    travel time) <= autonomous window, the clock at arrival, before the
    pickup time is added; an arrival exactly at the end of the window counts
    as autonomous. *)
Theorem autonomous_at_arrival start arts p plan :
  compute_strategy hypot start arts p = Returns plan ->
  timed (fun t0 v =>
           Visit.in_auton v = Qle_bool (t0 + Visit.travel_time v) (auton_time p) /\
           (t0 + Visit.travel_time v == auton_time p -> Visit.in_auton v = true))
        0 (Plan.visited plan).
Proof.
  apply timed_plan.
  intros s v s' (d & rest & _ & _ & _ & Hrec & _).
  destruct Hrec as (_ & -> & _ & _ & -> & _).
  split; [reflexivity|].
  intro E. apply Qle_bool_iff. rewrite E. apply Qle_refl.
Qed.

(** *** Nearest first *)

Lemma steps_greedy p s vs s' :
  steps hypot p s vs s' ->
  greedy_path (euclid hypot) (pos s) (artifacts s) (map Visit.pos vs).
Proof.
  induction 1 as [s|s v s1 vs s2 _ Hadv _ IH]; simpl; [exact I|].
  destruct Hadv as (d & rest & Hd & _ & _ & _ & Hr & _ & Hpos & _).
  apply dlist_head in Hd. destruct Hd as [_ Hnear].
  split; [assumption|].
  exists (artifacts s1). split; [assumption|]. now rewrite <- Hpos.
Qed.

(** C5. At every pass the planner goes to a remaining target at minimum
    [euclid] distance from where it stands, and among several at that
    distance to the one listed first: the visited positions are a
    [greedy_path] through the target list. *)
Theorem nearest_first_listed start arts p plan :
  compute_strategy hypot start arts p = Returns plan ->
  greedy_path (euclid hypot) start arts (map Visit.pos (Plan.visited plan)).
Proof.
  intro H. apply compute_strategy_Returns in H.
  destruct H as (s & Hst & _).
  exact (steps_greedy _ _ _ _ Hst).
Qed.

(** *** Scoring *)

(** C6. For every record, with [center] and [radius] the decode zone: the
    bonus is [decode_bonus] when the target is within [radius] of [center],
    the boundary included, and 0 otherwise, so that a non-zero
    [decode_bonus] is the recorded bonus if and only if the target is
    within [radius]; the base is [points_per_artifact]; and the gain is
    base + bonus, times [auton_multiplier] exactly when the record is
    [in_auton]. *)
Theorem bonus_and_gain start arts p plan :
  compute_strategy hypot start arts p = Returns plan ->
  Forall (fun v =>
            let d := euclid hypot (Visit.pos v) (fst (decode_zone p)) in
            let radius := snd (decode_zone p) in
            (d <= radius -> Visit.bonus_points v == decode_bonus p) /\
            (radius < d -> Visit.bonus_points v == 0) /\
            (~ decode_bonus p == 0 ->
             (Visit.bonus_points v == decode_bonus p <-> d <= radius)) /\
            Visit.base_points v = points_per_artifact p /\
            Visit.gained v =
              if Visit.in_auton v
              then (Visit.base_points v + Visit.bonus_points v) * auton_multiplier p
              else Visit.base_points v + Visit.bonus_points v)
         (Plan.visited plan).
Proof.
  intro H. apply (timed_Forall _ 0).
  apply (timed_plan _ start arts p plan); [|assumption].
  intros s v s' (d & rest & _ & _ & _ & Hrec & _).
  destruct Hrec as (_ & _ & _ & _ & _ & Hbase & Hbonus & Hgain).
  simpl.
  set (d0 := euclid hypot (Visit.pos v) (fst (decode_zone p))) in *.
  set (radius := snd (decode_zone p)) in *.
  assert (Hin : d0 <= radius -> Visit.bonus_points v == decode_bonus p).
  { intro Hle. apply Qle_bool_iff in Hle. rewrite Hbonus, Hle.
    apply Qplus_0_l. }
  assert (Hout : radius < d0 -> Visit.bonus_points v == 0).
  { intro Hlt. rewrite Hbonus. destruct (Qle_bool d0 radius) eqn:E;
      [|reflexivity].
    apply Qle_bool_iff in E. exfalso. exact (Qlt_not_le _ _ Hlt E). }
  split; [exact Hin|]. split; [exact Hout|]. split; [|split; assumption].
  intro Hnz. split; [|exact Hin].
  intro Heq. destruct (Qlt_le_dec radius d0) as [Hlt|Hle]; [|exact Hle].
  exfalso. apply Hnz. rewrite <- Heq. exact (Hout Hlt).
Qed.

(** *** Recorded times *)

(** C7, as the code has it.  The [time_at_pickup] of a record is the clock
    when the pickup is over: the clock before the visit, plus the travel
    time, plus the pickup time. *)
Theorem time_at_pickup_after_pickup start arts p plan :
  compute_strategy hypot start arts p = Returns plan ->
  timed (fun t0 v =>
           Visit.time_at_pickup v =
           t0 + Visit.travel_time v + Visit.pickup_time v)
        0 (Plan.visited plan).
Proof.
  apply timed_plan.
  intros s v s' (d & rest & _ & _ & _ & Hrec & _).
  destruct Hrec as (_ & -> & -> & -> & _). reflexivity.
Qed.

Lemma travel_nonneg p from target :
  0 < speed p -> 0 <= euclid hypot from target / speed p.
Proof.
  intro Hsp. unfold Qdiv. apply Qmult_le_0_compat.
  - apply hypot_nonneg.
  - apply Qinv_le_0_compat. now apply Qlt_le_weak.
Qed.


(** *** Returning without an error *)





End Plans.

(** ** The worked inputs, run *)

Lemma example_plan_computed :
  compute_strategy hypotQ example_start example_artifacts example_params
  = Returns example_plan.
Proof. vm_compute. reflexivity. Qed.


(** Scenarios 1 to 3 of the specification. *)
Example scenario_1 :
  compute_strategy hypotQ (0, 0) [ (0, 10) ] (scenario_params 100)
  = Returns (Plan.mk [ Visit.mk (0, 10) (10 # 10) 0 (10 # 10) false 5 0 5 ]
               5 (10 # 10) 0 (scenario_params 100)).
Proof. vm_compute. reflexivity. Qed.

Example scenario_2 :
  compute_strategy hypotQ (0, 0) [ (0, 10) ] (scenario_params (1 # 2))
  = Returns (Plan.mk [] 0 0 1 (scenario_params (1 # 2))).
Proof. vm_compute. reflexivity. Qed.

Example scenario_3 :
  exists plan,
    compute_strategy hypotQ (0, 0) [ (5, 0); (-5, 0) ] (scenario_params 100)
    = Returns plan /\
    map Visit.pos (Plan.visited plan) = [ (5, 0); (-5, 0) ].
Proof. eexists. split; vm_compute; reflexivity. Qed.


(** *** The claims at the worked inputs *)


Lemma conservation_witness :
  compute_strategy hypotQ example_start example_artifacts example_params
  = Returns example_plan /\
  (length (Plan.visited example_plan)
   + Plan.remaining_artifacts example_plan = length example_artifacts)%nat /\
  exists unreached,
    length unreached = Plan.remaining_artifacts example_plan /\
    Permutation example_artifacts
      (map Visit.pos (Plan.visited example_plan) ++ unreached).
Proof.
  split; [exact example_plan_computed|].
  exact (conservation hypotQ hypotQ_proper example_start example_artifacts
           example_params example_plan example_plan_computed).
Defined.

Lemma params_returned_witness :
  compute_strategy hypotQ example_start example_artifacts example_params
  = Returns example_plan /\
  Plan.params example_plan = example_params.
Proof.
  split; [exact example_plan_computed|].
  exact (params_returned hypotQ example_start example_artifacts
           example_params example_plan example_plan_computed).
Defined.

Lemma autonomous_at_arrival_witness :
  compute_strategy hypotQ example_start example_artifacts example_params
  = Returns example_plan /\
  timed (fun t0 v =>
           Visit.in_auton v
           = Qle_bool (t0 + Visit.travel_time v) (auton_time example_params) /\
           (t0 + Visit.travel_time v == auton_time example_params ->
            Visit.in_auton v = true))
        0 (Plan.visited example_plan).
Proof.
  split; [exact example_plan_computed|].
  exact (autonomous_at_arrival hypotQ example_start example_artifacts
           example_params example_plan example_plan_computed).
Defined.

Lemma nearest_first_listed_witness :
  compute_strategy hypotQ example_start example_artifacts example_params
  = Returns example_plan /\
  greedy_path (euclid hypotQ) example_start example_artifacts
    (map Visit.pos (Plan.visited example_plan)).
Proof.
  split; [exact example_plan_computed|].
  exact (nearest_first_listed hypotQ example_start example_artifacts
           example_params example_plan example_plan_computed).
Defined.

Lemma bonus_and_gain_witness :
  compute_strategy hypotQ example_start example_artifacts example_params
  = Returns example_plan /\
  Forall (fun v =>
            let d := euclid hypotQ (Visit.pos v) (fst (decode_zone example_params)) in
            let radius := snd (decode_zone example_params) in
            (d <= radius -> Visit.bonus_points v == decode_bonus example_params) /\
            (radius < d -> Visit.bonus_points v == 0) /\
            (~ decode_bonus example_params == 0 ->
             (Visit.bonus_points v == decode_bonus example_params
              <-> d <= radius)) /\
            Visit.base_points v = points_per_artifact example_params /\
            Visit.gained v =
              if Visit.in_auton v
              then (Visit.base_points v + Visit.bonus_points v)
                   * auton_multiplier example_params
              else Visit.base_points v + Visit.bonus_points v)
         (Plan.visited example_plan).
Proof.
  split; [exact example_plan_computed|].
  exact (bonus_and_gain hypotQ example_start example_artifacts
           example_params example_plan example_plan_computed).
Defined.

Lemma time_at_pickup_after_pickup_witness :
  compute_strategy hypotQ example_start example_artifacts example_params
  = Returns example_plan /\
  timed (fun t0 v =>
           Visit.time_at_pickup v
           = t0 + Visit.travel_time v + Visit.pickup_time v)
        0 (Plan.visited example_plan).
Proof.
  split; [exact example_plan_computed|].
  exact (time_at_pickup_after_pickup hypotQ example_start example_artifacts
           example_params example_plan example_plan_computed).
Defined.



(** *** Where the specification and the code part *)


(** C7 fails on the code: with a pickup time of 1 the first record of the
    worked plan carries 2, the clock after the pickup, and not 1, the clock
    at arrival. *)
Lemma time_at_pickup_counterexample :
  compute_strategy hypotQ example_start example_artifacts example_params
  = Returns example_plan /\
  ~ timed (fun t0 v => Visit.time_at_pickup v == t0 + Visit.travel_time v)
          0 (Plan.visited example_plan).
Proof.
  split; [exact example_plan_computed|].
  simpl. intros [H _]. vm_compute in H. discriminate H.
Qed.


(** ** Further properties of [compute_strategy] *)

Lemma last_nonempty {A} (x : A) l d d' : last (x :: l) d = last (x :: l) d'.
Proof.
  revert x. induction l as [|y l IH]; intros x; [reflexivity|].
  change (last (y :: l) d = last (y :: l) d'). apply IH.
Qed.

Lemma elapsed_after_last t0 vs :
  elapsed_after t0 vs = last (map Visit.time_at_pickup vs) t0.
Proof.
  revert t0. induction vs as [|v vs IH]; intros t0; [reflexivity|].
  simpl elapsed_after. rewrite IH.
  destruct vs as [|w vs]; [reflexivity|].
  change (map Visit.time_at_pickup (v :: w :: vs))
    with (Visit.time_at_pickup v :: map Visit.time_at_pickup (w :: vs)).
  change (last (map Visit.time_at_pickup (w :: vs)) (Visit.time_at_pickup v)
          = last (map Visit.time_at_pickup (w :: vs)) t0).
  apply last_nonempty.
Qed.

Lemma routed_impl (P R : Point -> Visit.t -> Prop) from vs :
  (forall a v, P a v -> R a v) -> routed P from vs -> routed R from vs.
Proof.
  intro H. revert from. induction vs as [|v vs IH]; simpl; intros from;
    [tauto|].
  intros [Hv Hvs]. split; auto.
Qed.

Section Further.

Variable hypot : Q -> Q -> Q.

Hypothesis hypot_nonneg : forall x y, 0 <= hypot x y.
Hypothesis hypot_proper :
  forall x x' y y', x == x' -> y == y' -> hypot x y == hypot x' y'.

Lemma steps_score p s vs s' :
  steps hypot p s vs s' ->
  score s' == score s + Qsum (map Visit.gained vs).
Proof.
  induction 1 as [s|s v s1 vs s2 _ Hadv _ IH]; simpl.
  - now rewrite Qplus_0_r.
  - destruct Hadv as (d & rest & _ & _ & _ & _ & _ & _ & _ & _ & Hs).
    rewrite IH, Hs. apply Qeq_sym, Qplus_assoc.
Qed.


Lemma steps_pos p s vs s' :
  steps hypot p s vs s' -> pos s' = last (map Visit.pos vs) (pos s).
Proof.
  induction 1 as [s|s v s1 vs s2 _ Hadv _ IH]; simpl; [reflexivity|].
  destruct Hadv as (d & rest & _ & _ & _ & _ & _ & _ & Hp & _).
  rewrite IH, Hp. destruct vs as [|w vs]; [reflexivity|].
  change (last (map Visit.pos (w :: vs)) (Visit.pos v)
          = last (map Visit.pos (w :: vs)) (pos s)).
  apply last_nonempty.
Qed.

Lemma steps_routed (P : Point -> Visit.t -> Prop) p :
  (forall s v s', advances hypot p s v s' -> P (pos s) v) ->
  forall s vs s', steps hypot p s vs s' -> routed P (pos s) vs.
Proof.
  intros HP. induction 1 as [s|s v s1 vs s2 _ Hadv _ IH]; simpl; [exact I|].
  split; [eapply HP; eassumption|].
  destruct Hadv as (d & rest & _ & _ & _ & _ & _ & _ & Hp & _).
  now rewrite <- Hp.
Qed.

(** *** What the totals are made of *)

(** X1. The reported score is the sum of the gains of the records. *)
Theorem score_is_sum_of_gains start arts p plan :
  compute_strategy hypot start arts p = Returns plan ->
  Plan.expected_score plan == Qsum (map Visit.gained (Plan.visited plan)).
Proof.
  intro H. apply compute_strategy_Returns in H.
  destruct H as (s & Hst & _ & _ & -> & _).
  apply steps_score in Hst. simpl in Hst.
  rewrite Hst. apply Qplus_0_l.
Qed.

(** X2. The reported used time is the [time_at_pickup] of the last record,
    and 0 when nothing was visited. *)
Theorem used_time_is_last_time_at_pickup start arts p plan :
  compute_strategy hypot start arts p = Returns plan ->
  Plan.used_time plan
  = last (map Visit.time_at_pickup (Plan.visited plan)) 0.
Proof.
  intro H. rewrite (used_time_elapsed hypot _ _ _ _ H).
  apply elapsed_after_last.
Qed.


(** *** The route *)

(** X4. Every record's travel time is the [euclid] distance from where the
    robot stood (the start, then the position of the record before) to the
    record's position, divided by the speed. *)
Theorem travel_time_is_distance_over_speed start arts p plan :
  compute_strategy hypot start arts p = Returns plan ->
  routed (fun from v =>
            Visit.travel_time v = euclid hypot from (Visit.pos v) / speed p)
         start (Plan.visited plan).
Proof.
  intro H. apply compute_strategy_Returns in H.
  destruct H as (s & Hst & _).
  refine (steps_routed _ p _ _ _ _ Hst).
  intros s0 v s1 (d & rest & Hd & _ & _ & Hrec & _).
  apply dlist_head in Hd. destruct Hd as [-> _].
  destruct Hrec as (_ & Htr & _). exact Htr.
Qed.

(** X5. The planner gives up only for lack of time: when targets are left,
    the first nearest of them, seen from the last visited position (the
    start when nothing was visited), would end after the match time. *)
Theorem stops_only_on_budget start arts p plan :
  compute_strategy hypot start arts p = Returns plan ->
  (0 < Plan.remaining_artifacts plan)%nat ->
  exists unreached target,
    length unreached = Plan.remaining_artifacts plan /\
    Permutation arts (map Visit.pos (Plan.visited plan) ++ unreached) /\
    let here := last (map Visit.pos (Plan.visited plan)) start in
    first_nearest (euclid hypot) here unreached target /\
    total_time p <
    Plan.used_time plan + (euclid hypot here target / speed p + pickup_time p).
Proof.
  intros H Hrem. apply compute_strategy_Returns in H.
  destruct H as (s & Hst & Hstop & _ & _ & Hused & Hleft & _).
  rewrite Hleft in Hrem.
  destruct Hstop as [Hnil|Hbreak].
  { rewrite Hnil in Hrem. simpl in Hrem. lia. }
  apply body_Break in Hbreak.
  destruct Hbreak as (d & target & rest & Hd & _ & Hlt).
  apply dlist_head in Hd. destruct Hd as [-> Hnear].
  exists (artifacts s), target.
  split; [now rewrite Hleft|].
  split; [exact (steps_conserve hypot hypot_proper _ _ _ _ Hst)|].
  pose proof (steps_pos _ _ _ _ Hst) as Hpos. simpl in Hpos, Hnear, Hlt |- *.
  rewrite <- Hpos, Hused. split; assumption.
Qed.

(** *** Autonomous first *)

Lemma advances_clock p s v s' :
  0 < speed p -> 0 <= pickup_time p ->
  advances hypot p s v s' ->
  t s <= t s + Visit.travel_time v /\
  t s + Visit.travel_time v <= t s' /\
  Visit.in_auton v = Qle_bool (t s + Visit.travel_time v) (auton_time p).
Proof.
  intros Hsp Hpk (d & rest & Hd & _ & _ & Hrec & _ & Ht & _).
  apply dlist_head in Hd. destruct Hd as [-> _].
  destruct Hrec as (_ & Htr & _ & Htap & Hin & _).
  rewrite Ht, Htap, Htr, Hin.
  pose proof (travel_nonneg hypot hypot_nonneg p (pos s) (Visit.pos v) Hsp)
    as Hnn.
  set (tr := euclid hypot (pos s) (Visit.pos v) / speed p) in *.
  repeat split; lra.
Qed.

Lemma steps_auton_clock p s vs s' :
  0 < speed p -> 0 <= pickup_time p ->
  steps hypot p s vs s' ->
  Forall (fun w => Visit.in_auton w = true -> t s <= auton_time p) vs.
Proof.
  intros Hsp Hpk. induction 1 as [s|s v s1 vs s2 _ Hadv _ IH];
    [constructor|].
  destruct (advances_clock p s v s1 Hsp Hpk Hadv) as (H1 & H2 & Hin).
  constructor.
  - intro Hv. rewrite Hin in Hv. apply Qle_bool_iff in Hv. lra.
  - eapply Forall_impl; [|exact IH]. simpl. intros w Hw Hwt.
    specialize (Hw Hwt). lra.
Qed.

(** X6. With speed > 0 and pickupDuration >= 0 the records counted as
    autonomous come first: a record that is [in_auton] is preceded by
    [in_auton] records only. *)
Theorem autonomous_records_first start arts p plan :
  0 < speed p -> 0 <= pickup_time p ->
  compute_strategy hypot start arts p = Returns plan ->
  StronglySorted (fun earlier later => later = true -> earlier = true)
    (map Visit.in_auton (Plan.visited plan)).
Proof.
  intros Hsp Hpk H. apply compute_strategy_Returns in H.
  destruct H as (s & Hst & _). revert Hst.
  generalize (Plan.visited plan) (initial start arts). intros vs s0 Hst.
  induction Hst as [s1|s1 v s2 vs s3 _ Hadv Hst IH]; simpl; constructor.
  - exact IH.
  - destruct (advances_clock p s1 v s2 Hsp Hpk Hadv) as (H1 & H2 & Hin).
    pose proof (steps_auton_clock p s2 vs s3 Hsp Hpk Hst) as Hl.
    rewrite Forall_map. eapply Forall_impl; [|exact Hl]. simpl.
    intros w Hw Hwt. specialize (Hw Hwt).
    rewrite Hin. apply Qle_bool_iff. lra.
Qed.

(** *** Non-negative times and the number of visits *)




Lemma timed_nonneg vs t0 :
  0 <= t0 ->
  timed (fun t1 v =>
           0 <= t1 -> 0 <= Visit.travel_time v /\ 0 <= Visit.time_at_pickup v)
        t0 vs ->
  0 <= elapsed_after t0 vs /\
  Forall (fun v => 0 <= Visit.travel_time v /\ 0 <= Visit.time_at_pickup v) vs.
Proof.
  revert t0. induction vs as [|v vs IH]; simpl; intros t0 Ht0.
  - intros _. split; [assumption|constructor].
  - intros [Hv Hvs]. destruct (Hv Ht0) as [Htr Htap].
    destruct (IH _ Htap Hvs) as [Hu Hf].
    split; [assumption|]. constructor; [split; assumption|assumption].
Qed.

(** X7. With speed > 0 and pickupDuration >= 0 no recorded time is
    negative, and neither is the used time. *)
Theorem times_nonnegative start arts p plan :
  0 < speed p -> 0 <= pickup_time p ->
  compute_strategy hypot start arts p = Returns plan ->
  0 <= Plan.used_time plan /\
  Forall (fun v => 0 <= Visit.travel_time v /\ 0 <= Visit.time_at_pickup v)
         (Plan.visited plan).
Proof.
  intros Hsp Hpk H.
  assert (Hall : timed (fun t0 v =>
                          0 <= t0 ->
                          0 <= Visit.travel_time v /\
                          0 <= Visit.time_at_pickup v)
                       0 (Plan.visited plan)).
  { apply (timed_plan hypot _ start arts p plan); [|assumption].
    intros s v s' (d & rest & Hd & _ & _ & Hrec & _).
    apply dlist_head in Hd. destruct Hd as [-> _].
    destruct Hrec as (_ & -> & _ & -> & _).
    pose proof (travel_nonneg hypot hypot_nonneg p (pos s) (Visit.pos v) Hsp)
      as Hnn.
    set (tr := euclid hypot (pos s) (Visit.pos v) / speed p) in *.
    intro. split; lra. }
  rewrite (used_time_elapsed hypot _ _ _ _ H).
  apply timed_nonneg; [apply Qle_refl|exact Hall].
Qed.


(** *** Scores *)

Lemma Qsum_nonneg l : Forall (fun x => 0 <= x) l -> 0 <= Qsum l.
Proof.
  induction 1 as [|x l Hx _ IH]; simpl; [apply Qle_refl|].
  change 0 with (0 + 0). apply Qplus_le_compat; assumption.
Qed.

(** X9. With non-negative base points, bonus and multiplier, no record
    gains a negative score and the expected score is not negative. *)
Theorem score_nonnegative start arts p plan :
  0 <= points_per_artifact p -> 0 <= decode_bonus p ->
  0 <= auton_multiplier p ->
  compute_strategy hypot start arts p = Returns plan ->
  0 <= Plan.expected_score plan /\
  Forall (fun v => 0 <= Visit.bonus_points v /\ 0 <= Visit.gained v)
         (Plan.visited plan).
Proof.
  intros Hbase Hbonus Hmult H.
  assert (Hall : Forall (fun v => 0 <= Visit.bonus_points v /\
                                  0 <= Visit.gained v) (Plan.visited plan)).
  { apply (timed_Forall _ 0).
    apply (timed_plan hypot _ start arts p plan); [|assumption].
    intros s v s' (d & rest & _ & _ & _ & Hrec & _).
    destruct Hrec as (_ & _ & _ & _ & _ & Hb & Hbo & Hg).
    assert (Hbn : 0 <= Visit.bonus_points v).
    { rewrite Hbo. destruct (Qle_bool _ _); lra. }
    split; [assumption|]. rewrite Hg, Hb.
    destruct (Visit.in_auton v); [|lra].
    apply Qmult_le_0_compat; lra. }
  split; [|assumption].
  apply compute_strategy_Returns in H.
  destruct H as (s & Hst & _ & _ & -> & _).
  apply steps_score in Hst. simpl in Hst. rewrite Hst, Qplus_0_l.
  apply Qsum_nonneg. rewrite Forall_map.
  eapply Forall_impl; [|exact Hall]. simpl. tauto.
Qed.



(** *** Inputs at the edge *)

(** X10. Without targets there is nothing to divide: whatever the start
    and the parameters, a zero speed included, the plan is empty, with
    score 0, used time 0 and nothing left. *)
Theorem no_targets_no_plan start p :
  compute_strategy hypot start [] p = Returns (Plan.mk [] 0 0 0 p).
Proof. reflexivity. Qed.

(** *** What the route depends on *)







End Further.

(** ** The script of [app.py]: text *)

Lemma is_empty_append a c b :
  App.is_empty (String.append a (String.String c b)) = false.
Proof. destruct a; reflexivity. Qed.

Lemma split_not_nil sep s : App.split sep s <> [].
Proof.
  destruct s as [|c s]; simpl; [discriminate|].
  destruct (Ascii.eqb c sep); [discriminate|].
  destruct (App.split sep s); discriminate.
Qed.

Lemma split_free sep s : App.free_of sep s = true -> App.split sep s = [s].
Proof.
  induction s as [|c s IH]; simpl; [reflexivity|].
  destruct (Ascii.eqb c sep); simpl; [discriminate|].
  intro H. now rewrite (IH H).
Qed.

Lemma split_append sep a b :
  App.free_of sep a = true ->
  App.split sep (String.append a (String.String sep b))
  = a :: App.split sep b.
Proof.
  induction a as [|c a IH]; simpl.
  - intros _. now rewrite Ascii.eqb_refl.
  - destruct (Ascii.eqb c sep); simpl; [discriminate|].
    intro H. now rewrite (IH H).
Qed.

(** [sep.join(l).split(sep)] gives [l] back when no entry holds [sep]. *)
Lemma split_concat sep l :
  l <> [] -> Forall (fun s => App.free_of sep s = true) l ->
  App.split sep (String.concat (String.String sep String.EmptyString) l) = l.
Proof.
  intros Hne Hl. induction Hl as [|s l Hs Hl IH]; [congruence|].
  destruct l as [|s' l].
  - simpl. now apply split_free.
  - change (String.concat (String.String sep String.EmptyString) (s :: s' :: l))
      with (String.append s
              (String.String sep
                 (String.concat (String.String sep String.EmptyString) (s' :: l)))).
    rewrite split_append by assumption. f_equal. apply IH. discriminate.
Qed.

Lemma free_of_lstrip sep s :
  App.free_of sep s = true -> App.free_of sep (App.lstrip s) = true.
Proof.
  induction s as [|c s IH]; simpl; [reflexivity|].
  intro H. destruct (App.is_space c); [|exact H].
  apply IH. apply andb_true_iff in H. tauto.
Qed.

Lemma free_of_rstrip sep s :
  App.free_of sep s = true -> App.free_of sep (App.rstrip s) = true.
Proof.
  induction s as [|c s IH]; simpl; [reflexivity|].
  intro H. apply andb_true_iff in H. destruct H as [Hc Hs].
  destruct (App.is_empty (App.rstrip s) && App.is_space c); [reflexivity|].
  simpl. rewrite Hc. now apply IH.
Qed.

Lemma lstrip_pair a b :
  App.lstrip (App.pair_text (a, b)) = App.pair_text (App.lstrip a, b).
Proof.
  unfold App.pair_text. simpl fst. simpl snd.
  induction a as [|c a IH]; simpl; [reflexivity|].
  destruct (App.is_space c); [exact IH|reflexivity].
Qed.

Lemma rstrip_pair a b :
  App.rstrip (App.pair_text (a, b)) = App.pair_text (a, App.rstrip b).
Proof.
  unfold App.pair_text. simpl fst. simpl snd.
  induction a as [|c a IH].
  - simpl. destruct (App.is_empty (App.rstrip b)); reflexivity.
  - simpl. rewrite IH, is_empty_append. reflexivity.
Qed.

Lemma strip_pair a b :
  App.strip (App.pair_text (a, b))
  = App.pair_text (App.lstrip a, App.rstrip b).
Proof. unfold App.strip. now rewrite lstrip_pair, rstrip_pair. Qed.

(** ** The script of [app.py]: what it computes *)

Lemma path_loop_legs cur vs px py :
  App.path_loop cur vs px py
  = (px ++ flat_map (fun leg => [fst (fst leg); fst (snd leg)])
             (legs cur (map Visit.pos vs)),
     py ++ flat_map (fun leg => [snd (fst leg); snd (snd leg)])
             (legs cur (map Visit.pos vs))).
Proof.
  revert cur px py. induction vs as [|v vs IH]; intros cur px py; simpl.
  - now rewrite !app_nil_r.
  - rewrite IH, <- !app_assoc. reflexivity.
Qed.

Lemma legs_length from ps : length (legs from ps) = length ps.
Proof.
  revert from. induction ps as [|p ps IH]; intros from; simpl;
    [reflexivity|]. now rewrite IH.
Qed.

(** X13. The path the script draws is the walk of the plan: for each
    record, in order, the corner where the robot stood (the start, then the
    position of the record before) followed by the record's position; so it
    has two corners per record, and none when nothing was visited. *)
Theorem planned_path_is_the_walk start vs :
  App.planned_path start vs
  = (flat_map (fun leg => [fst (fst leg); fst (snd leg)])
       (legs start (map Visit.pos vs)),
     flat_map (fun leg => [snd (fst leg); snd (snd leg)])
       (legs start (map Visit.pos vs))) /\
  length (fst (App.planned_path start vs)) = (2 * length vs)%nat /\
  length (snd (App.planned_path start vs)) = (2 * length vs)%nat.
Proof.
  unfold App.planned_path. rewrite path_loop_legs. simpl.
  split; [reflexivity|].
  assert (H : forall (f : Point * Point -> list Q) l,
             (forall leg, length (f leg) = 2%nat) ->
             length (flat_map f l) = (2 * length l)%nat).
  { intros f l Hf. induction l as [|x l IH]; simpl; [reflexivity|].
    rewrite length_app, Hf, IH. lia. }
  split; (rewrite H, legs_length, length_map; [reflexivity|reflexivity]).
Qed.

(** X14. The coach tips are never computed: whatever the widgets hold and
    whatever the plan, reading [autonom_multiplier], a name the script
    never binds, raises [NameError] before any tip is written. *)
Theorem coach_tips_raise_NameError w result :
  App.coach_tips (App.globals w) result
  = App.Error (App.NameError "autonom_multiplier"%string).
Proof. reflexivity. Qed.

Section Script.

Variable hypot : Q -> Q -> Q.
Variable float : String.string -> option Q.

Hypothesis hypot_nonneg : forall x y, 0 <= hypot x y.

Lemma parse_loop_counts pieces arts warns :
  (length (fst (App.parse_loop float pieces arts warns))
   + length (snd (App.parse_loop float pieces arts warns))
   = length arts + length warns
     + length (filter App.nonblank pieces))%nat.
Proof.
  revert arts warns. induction pieces as [|p pieces IH]; intros arts warns.
  - simpl. lia.
  - simpl. unfold App.nonblank at 1.
    destruct (App.is_empty (App.strip p)); simpl.
    + apply IH.
    + destruct (App.parse_pair float (App.strip p));
        rewrite IH, length_app; simpl; lia.
Qed.

(** X15. Every entry of the text area that is not blank is accounted for:
    the number of artifacts read plus the number of warnings is the number
    of [;]-separated entries that are not blank. *)
Theorem every_entry_is_read_or_warned art_input :
  (length (fst (App.parse_artifacts float art_input))
   + length (snd (App.parse_artifacts float art_input))
   = length (filter App.nonblank (App.split ";"%char art_input)))%nat.
Proof.
  unfold App.parse_artifacts. rewrite parse_loop_counts. reflexivity.
Qed.

Lemma parse_pair_reads a b point :
  App.reads float (a, b) point ->
  App.parse_pair float (App.strip (App.pair_text (a, b))) = Some point.
Proof.
  intros (_ & Ha & _ & Hb & Hx & Hy). simpl in *.
  rewrite strip_pair. unfold App.parse_pair, App.pair_text. simpl fst.
  simpl snd.
  rewrite split_append by now apply free_of_lstrip.
  rewrite split_free by now apply free_of_rstrip.
  rewrite Hx, Hy. now destruct point.
Qed.

Lemma parse_loop_reads texts points :
  Forall2 (App.reads float) texts points ->
  forall arts warns,
    App.parse_loop float (map App.pair_text texts) arts warns
    = (arts ++ points, warns).
Proof.
  induction 1 as [|[a b] point texts points Hr _ IH]; intros arts warns;
    simpl.
  - now rewrite app_nil_r.
  - rewrite (parse_pair_reads a b point Hr).
    rewrite strip_pair. unfold App.pair_text at 1. simpl fst. simpl snd.
    rewrite is_empty_append, IH, <- app_assoc. reflexivity.
Qed.

Lemma free_of_pair_text sep a b :
  sep <> ","%char ->
  App.free_of sep a = true -> App.free_of sep b = true ->
  App.free_of sep (App.pair_text (a, b)) = true.
Proof.
  intros Hsep Ha Hb. unfold App.pair_text. simpl fst. simpl snd.
  induction a as [|c a IH]; cbn [String.append App.free_of] in *.
  - rewrite Hb. destruct (Ascii.eqb_spec ","%char sep); [congruence|].
    reflexivity.
  - apply andb_true_iff in Ha. destruct Ha as [Hc Ha].
    rewrite Hc. now apply IH.
Qed.

(** X16. Well-formed text is read back whole: entries [a,b] joined by [;],
    where [a] and [b] hold no [;] and no [,] and [float] accepts them
    (blanks before [a] and after [b] stripped), give exactly their points,
    in order, and no warning. *)
Theorem well_formed_text_is_read_whole texts points :
  Forall2 (App.reads float) texts points ->
  App.parse_artifacts float
    (String.concat ";"%string (map App.pair_text texts))
  = (points, []).
Proof.
  intro H. unfold App.parse_artifacts.
  destruct H as [|ab point texts points Hr Hrest]; [reflexivity|].
  rewrite split_concat.
  - apply (parse_loop_reads _ _ (Forall2_cons _ _ Hr Hrest) [] []).
  - discriminate.
  - assert (Hall : Forall2 (App.reads float) (ab :: texts) (point :: points))
      by now constructor.
    clear Hr Hrest. induction Hall as [|[a b] pt l l' Hr _ IH]; simpl;
      constructor; [|exact IH].
    destruct Hr as (Ha & _ & Hb & _). simpl in *.
    apply free_of_pair_text; [discriminate|assumption|assumption].
Qed.




(** X18. Pressing the button always ends in the [NameError]: within the
    bounds of the sidebar the strategy is computed without an error, and
    then the tips fail on [autonom_multiplier]; no run ever completes. *)
Theorem run_ends_in_NameError w :
  Widgets.in_bounds w -> Widgets.button w = true ->
  App.main hypot float w
  = App.Error (App.NameError "autonom_multiplier"%string).
Proof.
  intros Hb Hbutton. unfold App.main. rewrite Hbutton.
  assert (Hnz : ~ speed (App.params w) == 0).
  { destruct Hb as (_ & _ & Hs & _).
    cbv [speed App.params Params.get Params.robot_speed].
    intro E. rewrite E in Hs. destruct Hs as [Hs _]. apply Hs. reflexivity. }
  unfold App.simulate.
  destruct (compute_strategy_total hypot (App.start w)
              (App.artifacts float w) (App.params w) Hnz)
    as (plan & ->).
  reflexivity.
Qed.

End Script.
(** ** The further properties at the worked inputs *)

Lemma score_is_sum_of_gains_witness :
  compute_strategy hypotQ example_start example_artifacts example_params
  = Returns example_plan /\
  Plan.expected_score example_plan
  == Qsum (map Visit.gained (Plan.visited example_plan)).
Proof.
  split; [exact example_plan_computed|].
  exact (score_is_sum_of_gains hypotQ example_start example_artifacts
           example_params example_plan example_plan_computed).
Defined.

Lemma used_time_is_last_time_at_pickup_witness :
  compute_strategy hypotQ example_start example_artifacts example_params
  = Returns example_plan /\
  Plan.used_time example_plan
  = last (map Visit.time_at_pickup (Plan.visited example_plan)) 0.
Proof.
  split; [exact example_plan_computed|].
  exact (used_time_is_last_time_at_pickup hypotQ example_start
           example_artifacts example_params example_plan
           example_plan_computed).
Defined.


Lemma travel_time_is_distance_over_speed_witness :
  compute_strategy hypotQ example_start example_artifacts example_params
  = Returns example_plan /\
  routed (fun from v =>
            Visit.travel_time v
            = euclid hypotQ from (Visit.pos v) / speed example_params)
         example_start (Plan.visited example_plan).
Proof.
  split; [exact example_plan_computed|].
  exact (travel_time_is_distance_over_speed hypotQ example_start
           example_artifacts example_params example_plan
           example_plan_computed).
Defined.

Lemma stops_only_on_budget_witness :
  compute_strategy hypotQ example_start example_artifacts example_params
  = Returns example_plan /\
  (0 < Plan.remaining_artifacts example_plan)%nat /\
  exists unreached target,
    length unreached = Plan.remaining_artifacts example_plan /\
    Permutation example_artifacts
      (map Visit.pos (Plan.visited example_plan) ++ unreached) /\
    let here := last (map Visit.pos (Plan.visited example_plan)) example_start in
    first_nearest (euclid hypotQ) here unreached target /\
    total_time example_params <
    Plan.used_time example_plan
    + (euclid hypotQ here target / speed example_params
       + pickup_time example_params).
Proof.
  assert (H : (0 < Plan.remaining_artifacts example_plan)%nat)
    by (simpl; lia).
  split; [exact example_plan_computed|]. split; [exact H|].
  exact (stops_only_on_budget hypotQ hypotQ_proper example_start
           example_artifacts example_params example_plan
           example_plan_computed H).
Defined.

Lemma autonomous_records_first_witness :
  0 < speed example_params /\ 0 <= pickup_time example_params /\
  compute_strategy hypotQ example_start example_artifacts example_params
  = Returns example_plan /\
  StronglySorted (fun earlier later => later = true -> earlier = true)
    (map Visit.in_auton (Plan.visited example_plan)).
Proof.
  assert (H1 : 0 < speed example_params) by reflexivity.
  assert (H2 : 0 <= pickup_time example_params) by (vm_compute; discriminate).
  split; [exact H1|]. split; [exact H2|].
  split; [exact example_plan_computed|].
  exact (autonomous_records_first hypotQ hypotQ_nonneg example_start
           example_artifacts example_params example_plan H1 H2
           example_plan_computed).
Defined.

Lemma times_nonnegative_witness :
  0 < speed example_params /\ 0 <= pickup_time example_params /\
  compute_strategy hypotQ example_start example_artifacts example_params
  = Returns example_plan /\
  0 <= Plan.used_time example_plan /\
  Forall (fun v => 0 <= Visit.travel_time v /\ 0 <= Visit.time_at_pickup v)
         (Plan.visited example_plan).
Proof.
  assert (H1 : 0 < speed example_params) by reflexivity.
  assert (H2 : 0 <= pickup_time example_params) by (vm_compute; discriminate).
  split; [exact H1|]. split; [exact H2|].
  split; [exact example_plan_computed|].
  exact (times_nonnegative hypotQ hypotQ_nonneg example_start
           example_artifacts example_params example_plan H1 H2
           example_plan_computed).
Defined.


Lemma score_nonnegative_witness :
  0 <= points_per_artifact example_params /\
  0 <= decode_bonus example_params /\
  0 <= auton_multiplier example_params /\
  compute_strategy hypotQ example_start example_artifacts example_params
  = Returns example_plan /\
  0 <= Plan.expected_score example_plan /\
  Forall (fun v => 0 <= Visit.bonus_points v /\ 0 <= Visit.gained v)
         (Plan.visited example_plan).
Proof.
  assert (H1 : 0 <= points_per_artifact example_params)
    by (vm_compute; discriminate).
  assert (H2 : 0 <= decode_bonus example_params)
    by (vm_compute; discriminate).
  assert (H3 : 0 <= auton_multiplier example_params)
    by (vm_compute; discriminate).
  split; [exact H1|]. split; [exact H2|]. split; [exact H3|].
  split; [exact example_plan_computed|].
  exact (score_nonnegative hypotQ example_start example_artifacts
           example_params example_plan H1 H2 H3 example_plan_computed).
Defined.





Lemma typed_text_reads :
  Forall2 (App.reads float_of_digits)
    [ ("3", "4"); (" 0", "8 ") ]%string [ (3, 4); (0, 8) ].
Proof. repeat constructor. Qed.

Lemma well_formed_text_is_read_whole_witness :
  Forall2 (App.reads float_of_digits)
    [ ("3", "4"); (" 0", "8 ") ]%string [ (3, 4); (0, 8) ] /\
  App.parse_artifacts float_of_digits
    (String.concat ";"%string
       (map App.pair_text [ ("3", "4"); (" 0", "8 ") ]%string))
  = ([ (3, 4); (0, 8) ], []).
Proof.
  split; [exact typed_text_reads|].
  exact (well_formed_text_is_read_whole float_of_digits _ _ typed_text_reads).
Defined.

Lemma default_widgets_in_bounds : Widgets.in_bounds default_widgets.
Proof. repeat split; vm_compute; discriminate. Qed.


Lemma run_ends_in_NameError_witness :
  Widgets.in_bounds default_widgets /\
  Widgets.button default_widgets = true /\
  App.main hypotQ float_of_digits default_widgets
  = App.Error (App.NameError "autonom_multiplier"%string).
Proof.
  split; [exact default_widgets_in_bounds|]. split; [reflexivity|].
  exact (run_ends_in_NameError hypotQ float_of_digits default_widgets
           default_widgets_in_bounds eq_refl).
Defined.

(** The text typed by hand in [manual_widgets]: two points, two warnings,
    the blank entry passed over. *)
Example manual_text_parsed :
  App.parse_artifacts float_of_digits (Widgets.art_input manual_widgets)
  = ([ (3, 4); (0, 8) ], [ "oops"; "3,4,5" ]%string).
Proof. vm_compute. reflexivity. Qed.

